(** * dep11/utils.py: [str_enc_dec]

    A shallow embedding of [str_enc_dec] under the Python 2.7 semantics the
    source names in its leading comment ("for python2.7 not required for
    python3").  The function body is two guarded builtin calls,

      try:    val = unicode(val, "UTF-8", errors='replace')
      except TypeError: pass
      try:    val = str(val)
      except UnicodeEncodeError: pass
      return val

    so the development has these layers:
    - the Python values the function can be handed, and exceptions;
    - the two builtins, [unicode(_, "UTF-8", errors='replace')] with the
      UTF-8 decoder of CPython 2.7 and [str(_)] with the default (ASCII)
      encoding;
    - [str_enc_dec] itself, written with an explicit [try_except];
    - the same function with the interpreter state in view
      ([eff_str_enc_dec]): the default encoding as something [str] reads,
      and an instance's [__str__] as code that may read and change shared
      memory and print.  The first three layers are this one at default
      encoding ASCII with instances whose [__str__] does nothing but
      answer ([eff_str_enc_dec_agrees]). *)

From Stdlib Require Import NArith ZArith List Bool Lia.
From Stdlib Require Import Strings.Byte.
From Stdlib Require Strings.String Numbers.DecimalString.
From Equations Require Import Equations.
Import ListNotations.

Local Open Scope N_scope.

(** ** Exceptions and results *)

(** The exception classes that matter here, with the Python 2.7 hierarchy
    Exception > StandardError > {TypeError, RuntimeError,
    ValueError > UnicodeError > {UnicodeEncodeError, UnicodeDecodeError}}. *)
Inductive exn : Type :=
| Exception
| StandardError
| TypeError
| ValueError
| RuntimeError
| UnicodeError
| UnicodeEncodeError
| UnicodeDecodeError.

Definition exn_base (e : exn) : option exn :=
  match e with
  | Exception => None
  | StandardError => Some Exception
  | TypeError | ValueError | RuntimeError => Some StandardError
  | UnicodeError => Some ValueError
  | UnicodeEncodeError | UnicodeDecodeError => Some UnicodeError
  end.

Definition exn_eqb (a b : exn) : bool :=
  match a, b with
  | Exception, Exception | StandardError, StandardError
  | TypeError, TypeError | ValueError, ValueError
  | RuntimeError, RuntimeError | UnicodeError, UnicodeError
  | UnicodeEncodeError, UnicodeEncodeError
  | UnicodeDecodeError, UnicodeDecodeError => true
  | _, _ => false
  end.

(** [issubclass e cls]: the test an [except cls:] clause performs.  The
    hierarchy above has depth five, which bounds the walk. *)
Fixpoint issubclass_upto (fuel : nat) (e cls : exn) : bool :=
  exn_eqb e cls ||
  match fuel, exn_base e with
  | S k, Some b => issubclass_upto k b cls
  | _, _ => false
  end.

Definition issubclass : exn -> exn -> bool := issubclass_upto 5.

(** The outcome of evaluating a Python expression. *)
Inductive result (A : Type) : Type :=
| Ret (a : A)
| Raise (e : exn).
Arguments Ret {A} a.
Arguments Raise {A} e.

Definition bind {A B} (m : result A) (k : A -> result B) : result B :=
  match m with
  | Ret a => k a
  | Raise e => Raise e
  end.

Notation "x <- m ;; k" := (bind m (fun x => k))
  (at level 61, m at next level, right associativity).

(** [try: body  except cls: handler]. An exception that is not an instance
    of [cls] is not caught. *)
Definition try_except {A} (body : result A) (cls : exn) (handler : result A)
  : result A :=
  match body with
  | Ret a => Ret a
  | Raise e => if issubclass e cls then handler else Raise e
  end.

(** ** Python values *)

(** The values [str_enc_dec] is applied to.  A Python 2 [str] is a byte
    string; a [unicode] is a sequence of code points (a UCS-4 build, so
    that one item is one code point); [int] and [long] are unbounded
    here.  An instance of a user-defined class takes part in this function
    only through [str(obj)], so it is represented by what its [__str__]
    does: return a value or raise.  The class meant is one that neither
    derives from [str] nor offers a buffer, which is what makes
    [unicode(obj, "UTF-8", ...)] refuse the instance. *)
#[warnings="-register-all"] Inductive pyval : Type :=
| PyStr (s : list byte)
| PyUnicode (u : list N)
| PyInt (n : Z)
| PyNone
| PyInstance (dunder_str : result pyval).

Definition is_unicode (v : pyval) : bool :=
  match v with PyUnicode _ => true | _ => false end.

Definition is_str (v : pyval) : bool :=
  match v with PyStr _ => true | _ => false end.

Definition is_instance (v : pyval) : bool :=
  match v with PyInstance _ => true | _ => false end.

(** ** The UTF-8 decoder of [unicode(val, "UTF-8", errors='replace')] *)

Definition byte_of_N (n : N) : byte :=
  match Byte.of_N n with
  | Some b => b
  | None => x00
  end.

(** The table [utf8_code_length] of CPython 2.7's unicodeobject.c: the
    length of the sequence a start byte announces, 0 for a byte that cannot
    start one (continuation bytes, C0, C1, F5..FF). *)
Definition utf8_code_length (b : N) : nat :=
  if b <? 0x80 then 1%nat
  else if b <? 0xC2 then 0%nat
  else if b <? 0xE0 then 2%nat
  else if b <? 0xF0 then 3%nat
  else if b <? 0xF5 then 4%nat
  else 0%nat.

(** [(b & 0xC0) == 0x80] *)
Definition is_continuation (b : N) : bool := N.land b 0xC0 =? 0x80.

(** The number of continuation bytes at the front of [s]. *)
Fixpoint count_continuation (s : list byte) : nat :=
  match s with
  | b :: rest =>
      if is_continuation (Byte.to_N b) then S (count_continuation rest)
      else 0%nat
  | [] => 0%nat
  end.

(** One turn of the decoder's loop: the code point read and how many bytes
    it took, or the number of bytes the error position covers. *)
Inductive utf8_step : Type :=
| Decoded (ch : N) (n : nat)
| Malformed (n : nat).

Definition replacement_character : N := 0xFFFD.

Definition utf8_decode_one (x0 : byte) (rest : list byte) : utf8_step :=
  let b0 := Byte.to_N x0 in
  if b0 <? 0x80 then Decoded b0 1
  else
    let n := utf8_code_length b0 in
    if (length (x0 :: rest) <? n)%nat then
      (* unexpected end of data *)
      Malformed (1 + count_continuation rest)
    else
      match n, rest with
      | 2%nat, x1 :: _ =>
          let b1 := Byte.to_N x1 in
          if negb (is_continuation b1) then Malformed 1
          else Decoded (N.shiftl (N.land b0 0x1f) 6 + N.land b1 0x3f) 2
      | 3%nat, x1 :: x2 :: _ =>
          let b1 := Byte.to_N x1 in
          let b2 := Byte.to_N x2 in
          if negb (is_continuation b1) || negb (is_continuation b2)
             || ((b0 =? 0xE0) && (b1 <? 0xA0))
          then Malformed (if is_continuation b1 then 2 else 1)
          else Decoded (N.shiftl (N.land b0 0x0f) 12
                        + N.shiftl (N.land b1 0x3f) 6
                        + N.land b2 0x3f) 3
      | 4%nat, x1 :: x2 :: x3 :: _ =>
          let b1 := Byte.to_N x1 in
          let b2 := Byte.to_N x2 in
          let b3 := Byte.to_N x3 in
          if negb (is_continuation b1) || negb (is_continuation b2)
             || negb (is_continuation b3)
             || ((b0 =? 0xF0) && (b1 <? 0x90))
             || ((b0 =? 0xF4) && (0x8F <? b1))
          then Malformed (if is_continuation b1
                          then if is_continuation b2 then 3 else 2
                          else 1)
          else Decoded (N.shiftl (N.land b0 0x7) 18
                        + N.shiftl (N.land b1 0x3f) 12
                        + N.shiftl (N.land b2 0x3f) 6
                        + N.land b3 0x3f) 4
      | _, _ =>
          (* invalid start byte *)
          Malformed 1
      end.

(** The decoding loop with the [replace] error handler: a malformed
    position yields U+FFFD and decoding resumes after it. *)
Equations? utf8_decode_replace (s : list byte) : list N
  by wf (length s) lt :=
  utf8_decode_replace [] := [];
  utf8_decode_replace (x0 :: rest) with utf8_decode_one x0 rest => {
    | Decoded ch n := ch :: utf8_decode_replace (skipn (pred n) rest);
    | Malformed n :=
        replacement_character :: utf8_decode_replace (skipn (pred n) rest) }.
Proof.
  all: simpl; rewrite length_skipn; lia.
Qed.

(** ** The builtins *)

Definition is_ascii (c : N) : bool := c <? 128.

(** [unicode(val, "UTF-8", errors='replace')].  A byte string is decoded;
    a [unicode] argument is refused ("decoding Unicode is not supported"),
    and so is anything that is neither a string nor a buffer ("coercing to
    Unicode: need string or buffer"), both with [TypeError].  The
    instances of [pyval] are of the refused kind; an instance of a class
    derived from [str] would be decoded like a byte string, without its
    [__str__] being asked. *)
Definition py_unicode_utf8_replace (val : pyval) : result pyval :=
  match val with
  | PyStr s => Ret (PyUnicode (utf8_decode_replace s))
  | PyUnicode _ => Raise TypeError
  | PyInt _ | PyNone | PyInstance _ => Raise TypeError
  end.

(** [u.encode('ascii')], the implicit conversion of a [unicode] to [str]
    with the default encoding. *)
Definition ascii_encode (u : list N) : result pyval :=
  if forallb is_ascii u then Ret (PyStr (map byte_of_N u))
  else Raise UnicodeEncodeError.

(** The decimal numeral of an integer, as [str] and [repr] print it. *)
Definition decimal (n : Z) : list byte :=
  String.list_byte_of_string (DecimalString.NilZero.string_of_int (Z.to_int n)).

(** [str(val)]: a [str] is returned as it is, a [unicode] is encoded with
    the default encoding, an instance answers through its [__str__], whose
    [unicode] result is encoded the same way and whose non-string result is
    a [TypeError] ("__str__ returned non-string"). *)
Definition py_str (val : pyval) : result pyval :=
  match val with
  | PyStr s => Ret (PyStr s)
  | PyUnicode u => ascii_encode u
  | PyInt n => Ret (PyStr (decimal n))
  | PyNone => Ret (PyStr [x4e; x6f; x6e; x65])
  | PyInstance (Ret (PyStr s)) => Ret (PyStr s)
  | PyInstance (Ret (PyUnicode u)) => ascii_encode u
  | PyInstance (Ret _) => Raise TypeError
  | PyInstance (Raise e) => Raise e
  end.

(** ** The function *)

(** The value of [val] after the first [try] statement. *)
Definition decode_stage (val : pyval) : result pyval :=
  try_except (py_unicode_utf8_replace val) TypeError (Ret val).

(** The value of [val] after the second [try] statement. *)
Definition str_stage (val : pyval) : result pyval :=
  try_except (py_str val) UnicodeEncodeError (Ret val).

Definition str_enc_dec (val : pyval) : result pyval :=
  val <- decode_stage val ;;
  val <- str_stage val ;;
  Ret val.

(** ** Equality of values and the UTF-8 encoding form *)

Fixpoint list_eqb {A} (eqb : A -> A -> bool) (l1 l2 : list A) : bool :=
  match l1, l2 with
  | [], [] => true
  | a :: l1, b :: l2 => eqb a b && list_eqb eqb l1 l2
  | _, _ => false
  end.

(** Sameness of two values: the same type and the same content. *)
Fixpoint pyval_eqb (a b : pyval) : bool :=
  match a, b with
  | PyStr s, PyStr t => list_eqb Byte.eqb s t
  | PyUnicode u, PyUnicode v => list_eqb N.eqb u v
  | PyInt n, PyInt m => Z.eqb n m
  | PyNone, PyNone => true
  | PyInstance (Ret v), PyInstance (Ret w) => pyval_eqb v w
  | PyInstance (Raise e), PyInstance (Raise e') => exn_eqb e e'
  | _, _ => false
  end.

(** Python 2's [==] on these values.  A [str] and a [unicode] compare
    equal when the [str] decodes with the default (ASCII) encoding to the
    [unicode]; a [str] with a byte above 127 is unequal to every
    [unicode].  Values of one type compare by content; an instance is
    equal to itself only, and is identified here with what its [__str__]
    does. *)
Definition py_eq (a b : pyval) : bool :=
  match a, b with
  | PyStr s, PyUnicode u | PyUnicode u, PyStr s =>
      forallb is_ascii (map Byte.to_N s) && list_eqb N.eqb (map Byte.to_N s) u
  | _, _ => pyval_eqb a b
  end.

(** The shortest form of one code point, one to four bytes, and of a text
    code point by code point.  On the scalar values (every code point but
    the surrogates U+D800..U+DFFF) this is UTF-8.  UTF-8 has no form for a
    surrogate; the three bytes given here for one are what the decoder
    above reads as that surrogate. *)
Definition utf8_encode_char (c : N) : list byte :=
  if c <? 0x80 then [byte_of_N c]
  else if c <? 0x800 then
    [byte_of_N (0xC0 + c / 64); byte_of_N (0x80 + c mod 64)]
  else if c <? 0x10000 then
    [byte_of_N (0xE0 + c / 4096); byte_of_N (0x80 + (c / 64) mod 64);
     byte_of_N (0x80 + c mod 64)]
  else
    [byte_of_N (0xF0 + c / 262144); byte_of_N (0x80 + (c / 4096) mod 64);
     byte_of_N (0x80 + (c / 64) mod 64); byte_of_N (0x80 + c mod 64)].

Definition utf8_encode (u : list N) : list byte :=
  flat_map utf8_encode_char u.

(** A code point: at most U+10FFFF. *)
Definition is_code_point (c : N) : bool := c <=? 0x10FFFF.

Definition is_surrogate (c : N) : bool := (0xD800 <=? c) && (c <=? 0xDFFF).

(** A Unicode scalar value: a code point that is no surrogate. *)
Definition is_scalar_value (c : N) : bool :=
  is_code_point c && negb (is_surrogate c).

(** Valid UTF-8 (RFC 3629): the encoding of a sequence of scalar values. *)
Definition utf8_valid (s : list byte) : Prop :=
  exists u, forallb is_scalar_value u = true /\ utf8_encode u = s.

(** What the decoder above reads without an error: valid UTF-8 in which
    the three-byte forms of surrogates may occur as well. *)
Definition utf8_decodable (s : list byte) : Prop :=
  exists u, forallb is_code_point u = true /\ utf8_encode u = s.

(** [p] is a prefix of [s]. *)
Definition starts_with (p s : list byte) : Prop := exists t, s = p ++ t.

(** What lossy decoding of [s] to [u] means: [s] splits into pieces, each
    of them either the form of a code point, which [u] has at that place,
    or a piece of one to three bytes for which [u] has U+FFFD.  At no byte
    of such a piece does the form of a code point start, so a replaced
    piece never takes text with it that could have been read. *)
Inductive utf8_replaced : list byte -> list N -> Prop :=
| replaced_nil : utf8_replaced [] []
| replaced_char c rest u :
    is_code_point c = true ->
    utf8_replaced rest u ->
    utf8_replaced (utf8_encode_char c ++ rest) (c :: u)
| replaced_bad bad rest u :
    (1 <= List.length bad <= 3)%nat ->
    (forall p q c, bad = p ++ q -> q <> [] -> is_code_point c = true ->
                   ~ starts_with (utf8_encode_char c) (q ++ rest)) ->
    utf8_replaced rest u ->
    utf8_replaced (bad ++ rest) (replacement_character :: u).

(** Sequencing a second call after a first, as in
    [str_enc_dec(str_enc_dec(x))]. *)
Definition twice (x : pyval) : result pyval :=
  v <- str_enc_dec x ;; str_enc_dec v.

(** [str(val)] raises an exception that [except UnicodeEncodeError] does
    not catch. *)
Definition str_propagates (val : pyval) : bool :=
  match py_str val with
  | Ret _ => false
  | Raise e => negb (issubclass e UnicodeEncodeError)
  end.

(** [val] is an instance whose [__str__] returns a byte string with a byte
    above 127. *)
Definition str_gives_high_bytes (val : pyval) : bool :=
  match val with
  | PyInstance (Ret (PyStr s)) => negb (forallb is_ascii (map Byte.to_N s))
  | _ => false
  end.

(** ** The function with the interpreter state in view *)

(** What a call can read or change besides its argument: the default
    encoding ([sys.getdefaultencoding()]), given as the encoder [str]
    applies to a [unicode], [None] where that raises
    [UnicodeEncodeError]; memory shared with the rest of the program; the
    bytes written to standard output. *)
Record world : Type := {
  defaultencoding : list N -> option (list byte);
  memory : N -> Z;
  stdout : list byte }.

(** An expression with effects: its outcome and the state it leaves. *)
Definition effect (A : Type) : Type := world -> result A * world.

(** The values once more, an instance's [__str__] now being code that
    runs in the state it finds: it may read it, change it and print.  As
    before the instance is of a class that [unicode(obj, "UTF-8", ...)]
    refuses. *)
#[warnings="-register-all"] Inductive value : Type :=
| VStr (s : list byte)
| VUnicode (u : list N)
| VInt (n : Z)
| VNone
| VObject (dunder_str : world -> result value * world).

Definition is_object (v : value) : bool :=
  match v with VObject _ => true | _ => false end.

Definition eff_ret {A} (a : A) : effect A := fun w => (Ret a, w).

Definition eff_bind {A B} (m : effect A) (k : A -> effect B) : effect B :=
  fun w =>
    match m w with
    | (Ret a, w') => k a w'
    | (Raise e, w') => (Raise e, w')
    end.

(** [try: body  except cls: handler]; what the body did before it raised
    stays done. *)
Definition eff_try_except {A} (body : effect A) (cls : exn)
    (handler : effect A) : effect A :=
  fun w =>
    match body w with
    | (Ret a, w') => (Ret a, w')
    | (Raise e, w') =>
        if issubclass e cls then handler w' else (Raise e, w')
    end.

Definition eff_unicode_utf8_replace (val : value) : effect value :=
  fun w =>
    match val with
    | VStr s => (Ret (VUnicode (utf8_decode_replace s)), w)
    | _ => (Raise TypeError, w)
    end.

(** The implicit conversion of a [unicode] to [str]. *)
Definition eff_encode_default (u : list N) : effect value :=
  fun w =>
    match defaultencoding w u with
    | Some s => (Ret (VStr s), w)
    | None => (Raise UnicodeEncodeError, w)
    end.

Definition eff_str (val : value) : effect value :=
  fun w =>
    match val with
    | VStr s => (Ret (VStr s), w)
    | VUnicode u => eff_encode_default u w
    | VInt n => (Ret (VStr (decimal n)), w)
    | VNone => (Ret (VStr [x4e; x6f; x6e; x65]), w)
    | VObject dunder_str =>
        match dunder_str w with
        | (Ret (VStr s), w') => (Ret (VStr s), w')
        | (Ret (VUnicode u), w') => eff_encode_default u w'
        | (Ret _, w') => (Raise TypeError, w')
        | (Raise e, w') => (Raise e, w')
        end
    end.

Definition eff_str_enc_dec (val : value) : effect value :=
  eff_bind (eff_try_except (eff_unicode_utf8_replace val) TypeError
                           (eff_ret val)) (fun val =>
  eff_bind (eff_try_except (eff_str val) UnicodeEncodeError
                           (eff_ret val)) (fun val =>
  eff_ret val)).

(** The encoders of the [ascii] and [latin-1] codecs. *)
Definition ascii_codec (u : list N) : option (list byte) :=
  if forallb is_ascii u then Some (map byte_of_N u) else None.

Definition latin1_codec (u : list N) : option (list byte) :=
  if forallb (fun c => c <? 256) u then Some (map byte_of_N u) else None.

(** The values of the first part are those whose [__str__] does nothing
    but answer. *)
Fixpoint inject (v : pyval) : value :=
  match v with
  | PyStr s => VStr s
  | PyUnicode u => VUnicode u
  | PyInt n => VInt n
  | PyNone => VNone
  | PyInstance (Ret v') => VObject (fun w => (Ret (inject v'), w))
  | PyInstance (Raise e) => VObject (fun w => (Raise e, w))
  end.

Definition inject_result (r : result pyval) : result value :=
  match r with
  | Ret v => Ret (inject v)
  | Raise e => Raise e
  end.

(** An interpreter as it starts: default encoding [ascii], memory zeroed,
    nothing printed. *)
Definition fresh_world : world :=
  {| defaultencoding := ascii_codec;
     memory := fun _ => 0%Z;
     stdout := [] |}.

Definition with_defaultencoding (w : world)
    (codec : list N -> option (list byte)) : world :=
  {| defaultencoding := codec; memory := memory w; stdout := stdout w |}.

(** The [__str__] of an object that counts its calls in memory cell 0,
    prints a dot and answers with the count so far:
    [n += 1; sys.stdout.write('.'); return str(n - 1)]. *)
Definition counting_str : world -> result value * world :=
  fun w =>
    (Ret (VStr (decimal (memory w 0))),
     {| defaultencoding := defaultencoding w;
        memory := fun a => if a =? 0 then (memory w 0 + 1)%Z else memory w a;
        stdout := stdout w ++ [x2e] |}).

(** ** Arithmetic of bytes *)

Ltac Zify.zify_post_hook ::= Z.to_euclidean_division_equations.

Lemma to_N_byte_of_N n : n < 256 -> Byte.to_N (byte_of_N n) = n.
Proof.
  intros H. unfold byte_of_N.
  destruct (Byte.of_N n) eqn:E.
  - now apply Byte.to_of_N.
  - apply Byte.of_N_None_iff in E. lia.
Qed.

Lemma byte_of_N_to_N x : byte_of_N (Byte.to_N x) = x.
Proof. unfold byte_of_N. now rewrite Byte.of_to_N. Qed.

Lemma to_N_lt_256 x : Byte.to_N x < 256.
Proof. pose proof (Byte.to_N_bounded x). lia. Qed.

Lemma is_continuation_byte x :
  is_continuation (Byte.to_N x)
  = (128 <=? Byte.to_N x) && (Byte.to_N x <? 192).
Proof. destruct x; reflexivity. Qed.

(** Case analysis on every comparison of the goal, closing the branches
    the context contradicts. *)
Ltac cmp_cases :=
  repeat match goal with
  | |- context [?a <? ?b] => destruct (N.ltb_spec a b); try lia
  | |- context [?a <=? ?b] => destruct (N.leb_spec a b); try lia
  | |- context [?a =? ?b] => destruct (N.eqb_spec a b); try lia
  end.

(** Masks and shifts as remainders and products. *)
Ltac unbits :=
  rewrite ?N.shiftl_mul_pow2;
  change 7 with (N.ones 3); change 15 with (N.ones 4);
  change 31 with (N.ones 5); change 63 with (N.ones 6);
  rewrite ?N.land_ones;
  cbn [N.pow Pos.pow Pos.iter Pos.mul N.ones N.pred N.shiftl Pos.pred_N
       Pos.shiftl Pos.pred_double].

Ltac byte_eq :=
  match goal with
  | |- byte_of_N ?e = ?x =>
      transitivity (byte_of_N (Byte.to_N x));
      [ f_equal; lia | apply byte_of_N_to_N ]
  end.

Ltac bound_bytes :=
  repeat match goal with
  | x : byte |- _ =>
      lazymatch goal with
      | H : Byte.to_N x < 256 |- _ => fail
      | _ => pose proof (to_N_lt_256 x)
      end
  end.

(** ** One turn of the decoder *)

(** A turn that reads a code point has read that code point's encoding
    form. *)
Lemma decode_one_Decoded x0 rest c n :
  utf8_decode_one x0 rest = Decoded c n ->
  is_code_point c = true
  /\ utf8_encode_char c = firstn n (x0 :: rest)
  /\ List.length (utf8_encode_char c) = n.
Proof.
  unfold utf8_decode_one, utf8_code_length.
  pose proof (to_N_lt_256 x0) as B0.
  destruct (N.ltb_spec (Byte.to_N x0) 128).
  { intros [= <- <-]. unfold utf8_encode_char, is_code_point.
    cmp_cases. simpl. rewrite byte_of_N_to_N. repeat split; reflexivity. }
  cmp_cases; cbn [List.length Nat.ltb Nat.leb].
  all: destruct rest as [|x1 [|x2 [|x3 tl]]];
    cbn [List.length Nat.ltb Nat.leb]; try discriminate.
  all: rewrite ?is_continuation_byte; bound_bytes.
  all: cmp_cases; cbn [negb orb andb]; try discriminate.
  all: intros [= <- <-]; unbits.
  all: split; [ apply N.leb_le; lia | ].
  all: unfold utf8_encode_char; cmp_cases; cbn [firstn].
  all: split; [ | reflexivity ].
  all: repeat f_equal; byte_eq.
Qed.

(** At the encoding form of a code point the turn reads that code point
    and stops right after the form. *)
Lemma decode_one_encode c rest :
  is_code_point c = true ->
  exists x0 tl,
    utf8_encode_char c ++ rest = x0 :: tl
    /\ utf8_decode_one x0 tl = Decoded c (List.length (utf8_encode_char c))
    /\ skipn (pred (List.length (utf8_encode_char c))) tl = rest.
Proof.
  unfold is_code_point. intros Hc%N.leb_le.
  unfold utf8_encode_char. cmp_cases.
  all: cbn [app List.length pred skipn]; do 2 eexists.
  all: split; [ reflexivity | split; [ | reflexivity ] ].
  all: unfold utf8_decode_one, utf8_code_length.
  all: cbn [List.length Nat.ltb Nat.leb].
  all: rewrite ?is_continuation_byte.
  all: rewrite !to_N_byte_of_N by lia.
  all: cmp_cases; cbn [List.length Nat.ltb Nat.leb negb orb andb].
  all: try reflexivity.
  all: cmp_cases; cbn [negb orb andb].
  all: f_equal; unbits; lia.
Qed.

(** ** The decoding loop *)

Lemma count_continuation_le s : (count_continuation s <= List.length s)%nat.
Proof.
  induction s as [|b s IH]; simpl; [ lia | ].
  destruct (is_continuation (Byte.to_N b)); lia.
Qed.

Lemma decode_one_Malformed x0 rest n :
  utf8_decode_one x0 rest = Malformed n -> (1 <= n <= 3)%nat.
Proof.
  unfold utf8_decode_one, utf8_code_length.
  cmp_cases; try discriminate.
  all: match goal with
       | |- context [(?a <? ?b)%nat] => destruct (Nat.ltb_spec a b) as [L|L]
       end;
    [ pose proof (count_continuation_le rest); simpl in L;
      intros [= <-]; lia | ].
  all: destruct rest as [|x1 [|x2 [|x3 tl]]]; simpl in L; try lia.
  all: repeat match goal with
       | |- context [if ?b then _ else _] => destruct b
       end; intros [= <-]; try discriminate; lia.
Qed.

Lemma utf8_decode_replace_cons x0 rest :
  utf8_decode_replace (x0 :: rest)
  = match utf8_decode_one x0 rest with
    | Decoded ch n => ch :: utf8_decode_replace (skipn (pred n) rest)
    | Malformed n =>
        replacement_character :: utf8_decode_replace (skipn (pred n) rest)
    end.
Proof.
  simp utf8_decode_replace.
  destruct (utf8_decode_one x0 rest); reflexivity.
Qed.

Lemma utf8_decode_encode u :
  forallb is_code_point u = true ->
  utf8_decode_replace (utf8_encode u) = u.
Proof.
  induction u as [|c u IH]; simpl; intros H.
  - reflexivity.
  - apply andb_true_iff in H as [Hc Hu].
    destruct (decode_one_encode c (utf8_encode u) Hc) as (x0 & tl & E & D & K).
    unfold utf8_encode in *. rewrite E, utf8_decode_replace_cons, D, K.
    now rewrite IH.
Qed.

Lemma split_consumed (x0 : byte) rest n :
  (1 <= n)%nat ->
  x0 :: rest = firstn n (x0 :: rest) ++ skipn (pred n) rest.
Proof.
  intros H. destruct n as [|n]; [ lia | ].
  simpl. now rewrite firstn_skipn.
Qed.

Lemma count_continuation_firstn s :
  Forall (fun b => is_continuation (Byte.to_N b) = true)
         (firstn (count_continuation s) s).
Proof.
  induction s as [|b s IH]; simpl; [ constructor | ].
  destruct (is_continuation (Byte.to_N b)) eqn:E; simpl;
    [ now constructor | constructor ].
Qed.

(** The bytes a malformed position covers after its first are
    continuation bytes. *)
Lemma decode_one_Malformed_tail x0 rest n :
  utf8_decode_one x0 rest = Malformed n ->
  Forall (fun b => is_continuation (Byte.to_N b) = true)
         (firstn (pred n) rest).
Proof.
  unfold utf8_decode_one, utf8_code_length.
  cmp_cases; try discriminate.
  all: match goal with
       | |- context [(?a <? ?b)%nat] => destruct (Nat.ltb_spec a b) as [L|L]
       end;
    [ intros [= <-]; apply count_continuation_firstn | ].
  all: destruct rest as [|x1 [|x2 [|x3 tl]]]; simpl in L; try lia.
  all: repeat match goal with
       | |- context [if ?b then _ else _] => destruct b eqn:?
       end; intros [= <-]; try discriminate; simpl;
    repeat constructor; assumption.
Qed.

(** No form of a code point starts with a continuation byte. *)
Lemma continuation_not_start y tl :
  is_continuation (Byte.to_N y) = true -> utf8_decode_one y tl = Malformed 1.
Proof.
  rewrite is_continuation_byte. intros [L U]%andb_true_iff.
  apply N.leb_le in L. apply N.ltb_lt in U.
  unfold utf8_decode_one, utf8_code_length. now cmp_cases.
Qed.

(** Where a turn of the decoder reports an error no form starts. *)
Lemma no_form_at_error x0 rest n c :
  utf8_decode_one x0 rest = Malformed n ->
  is_code_point c = true ->
  ~ starts_with (utf8_encode_char c) (x0 :: rest).
Proof.
  intros D Hc [t Ht].
  destruct (decode_one_encode c t Hc) as (y0 & tl & E & D' & _).
  rewrite <- Ht in E. injection E as <- <-. congruence.
Qed.

(** A replaced piece does not take readable text with it: FF 41 42 is not
    decoded to a lone U+FFFD. *)
Lemma utf8_replaced_spares_text : ~ utf8_replaced [xff; x41; x42] [0xFFFD].
Proof.
  intros H.
  inversion H as [|c rest u Hc Hr E1 E2|bad rest u Hl Hn Hr E1 E2]; subst.
  - vm_compute in E1. discriminate E1.
  - inversion Hr; subst.
    rewrite app_nil_r in E1. subst bad.
    apply (Hn [xff] [x41; x42] 0x41);
      [ reflexivity | discriminate | reflexivity | ].
    exists [x42]. reflexivity.
Qed.

Lemma utf8_decode_replaced s : utf8_replaced s (utf8_decode_replace s).
Proof.
  remember (List.length s) as k eqn:Hk.
  revert s Hk. induction k as [k IH] using lt_wf_ind. intros s ->.
  destruct s as [|x0 rest]; [ simp utf8_decode_replace; constructor | ].
  rewrite utf8_decode_replace_cons.
  assert (Hrec : forall n, utf8_replaced (skipn (pred n) rest)
                         (utf8_decode_replace (skipn (pred n) rest))).
  { intros n. eapply IH; [ | reflexivity ]. simpl. rewrite length_skipn. lia. }
  destruct (utf8_decode_one x0 rest) as [c n|n] eqn:D.
  - destruct (decode_one_Decoded _ _ _ _ D) as (Hc & E & L).
    assert (1 <= n)%nat.
    { rewrite <- L. unfold utf8_encode_char. cmp_cases; simpl; lia. }
    rewrite (split_consumed x0 rest n) by assumption.
    rewrite <- E. now constructor.
  - pose proof (decode_one_Malformed _ _ _ D) as Hn.
    pose proof (decode_one_Malformed_tail _ _ _ D) as Ht.
    rewrite (split_consumed x0 rest n) by lia.
    constructor; [ | | apply Hrec ].
    + rewrite length_firstn. simpl List.length. lia.
    + intros p q c Hpq Hq Hc.
      destruct p as [|a p].
      * simpl in Hpq. subst q. rewrite <- split_consumed by lia.
        now apply (no_form_at_error _ _ n).
      * destruct n as [|n]; [ lia | ]. simpl in Hpq, Ht.
        injection Hpq as _ Hpq. rewrite Hpq in Ht.
        apply Forall_app in Ht as [_ Ht].
        destruct q as [|y q]; [ congruence | ].
        apply Forall_inv in Ht.
        apply (no_form_at_error _ _ 1); [ | assumption ].
        now apply continuation_not_start.
Qed.

(** ** ASCII text *)

Lemma is_ascii_to_N_byte_of_N c :
  is_ascii c = true -> Byte.to_N (byte_of_N c) = c.
Proof.
  unfold is_ascii. intros H%N.ltb_lt. apply to_N_byte_of_N. lia.
Qed.

Lemma ascii_to_N_byte_of_N u :
  forallb is_ascii u = true -> map Byte.to_N (map byte_of_N u) = u.
Proof.
  induction u as [|c u IH]; simpl; [ reflexivity | ].
  intros [Hc Hu]%andb_true_iff.
  now rewrite is_ascii_to_N_byte_of_N, IH.
Qed.

Lemma byte_of_N_to_N_map s : map byte_of_N (map Byte.to_N s) = s.
Proof.
  induction s as [|x s IH]; simpl; [ reflexivity | ].
  now rewrite byte_of_N_to_N, IH.
Qed.

Lemma utf8_encode_char_ascii c :
  is_ascii c = true -> utf8_encode_char c = [byte_of_N c].
Proof.
  unfold is_ascii, utf8_encode_char. intros H%N.ltb_lt.
  now cmp_cases.
Qed.

(** ASCII bytes decode to themselves. *)
Lemma utf8_decode_ascii s :
  forallb is_ascii (map Byte.to_N s) = true ->
  utf8_decode_replace s = map Byte.to_N s.
Proof.
  induction s as [|x s IH]; simpl.
  - intros _. now simp utf8_decode_replace.
  - intros [Hx Hs]%andb_true_iff.
    rewrite utf8_decode_replace_cons. unfold utf8_decode_one.
    unfold is_ascii in Hx. rewrite Hx. simpl. now rewrite IH.
Qed.

(** A lossy decoding without any character above 127 comes from these
    very bytes. *)
Lemma utf8_replaced_ascii s u :
  utf8_replaced s u -> forallb is_ascii u = true -> map byte_of_N u = s.
Proof.
  induction 1 as [|c rest u Hc _ IH|bad rest u _ _ _ _]; simpl.
  - reflexivity.
  - intros [Ha Hu]%andb_true_iff.
    now rewrite utf8_encode_char_ascii, IH.
  - discriminate.
Qed.

(** A lossy decoding is exact, or it has a replacement character. *)
Lemma utf8_replaced_exact_or_lossy s u :
  utf8_replaced s u ->
  (forallb is_code_point u = true /\ utf8_encode u = s)
  \/ In replacement_character u.
Proof.
  induction 1 as [|c rest u Hc _ IH|bad rest u _ _ _ _].
  - now left.
  - destruct IH as [[Hu <-]|Hin]; [ left | right; now right ].
    split; [ | reflexivity ]. simpl. now rewrite Hc, Hu.
  - right. now left.
Qed.

Lemma not_decodable_replaced s :
  ~ utf8_decodable s -> In replacement_character (utf8_decode_replace s).
Proof.
  intros Hs.
  destruct (utf8_replaced_exact_or_lossy _ _ (utf8_decode_replaced s))
    as [[Hu E]|Hin]; [ | assumption ].
  exfalso. apply Hs. now exists (utf8_decode_replace s).
Qed.

Lemma decodable_fixed_point s :
  utf8_decodable s -> utf8_encode (utf8_decode_replace s) = s.
Proof.
  intros (u & Hu & <-). now rewrite utf8_decode_encode.
Qed.

Lemma scalar_values_code_points u :
  forallb is_scalar_value u = true -> forallb is_code_point u = true.
Proof.
  induction u as [|c u IH]; simpl; [ reflexivity | ].
  unfold is_scalar_value at 1.
  intros [[Hc _]%andb_true_iff Hu]%andb_true_iff.
  now rewrite Hc, IH.
Qed.

Lemma valid_decodable s : utf8_valid s -> utf8_decodable s.
Proof.
  intros (u & Hu & E). exists u. split; [ | assumption ].
  now apply scalar_values_code_points.
Qed.

(** A valid byte string decodes to the scalar values it encodes. *)
Lemma valid_decodes_to_scalars s :
  utf8_valid s -> forallb is_scalar_value (utf8_decode_replace s) = true.
Proof.
  intros (u & Hu & <-).
  now rewrite utf8_decode_encode by now apply scalar_values_code_points.
Qed.

Lemma code_points_without_surrogate u :
  forallb is_code_point u = true ->
  existsb is_surrogate u = false ->
  forallb is_scalar_value u = true.
Proof.
  induction u as [|c u IH]; simpl; [ reflexivity | ].
  intros [Hc Hu]%andb_true_iff [Hs Hx]%orb_false_iff.
  unfold is_scalar_value at 1. now rewrite Hc, Hs, IH.
Qed.

Lemma surrogate_not_ascii u :
  existsb is_surrogate u = true -> forallb is_ascii u = false.
Proof.
  induction u as [|c u IH]; simpl; [ discriminate | ].
  intros [Hc|Hu]%orb_true_iff.
  - unfold is_surrogate in Hc. apply andb_true_iff in Hc as [L _].
    apply N.leb_le in L. unfold is_ascii.
    destruct (N.ltb_spec c 128); [ lia | reflexivity ].
  - rewrite IH by assumption. apply andb_false_r.
Qed.

Lemma replacement_not_ascii u :
  In replacement_character u -> forallb is_ascii u = false.
Proof.
  induction u as [|c u IH]; simpl; [ tauto | ].
  intros [E|H]; [ now subst c | ].
  rewrite IH by assumption. apply andb_false_r.
Qed.

Lemma digits_ascii d :
  forallb is_ascii
    (map Byte.to_N
       (String.list_byte_of_string (DecimalString.NilEmpty.string_of_uint d)))
  = true.
Proof. induction d; simpl; auto. Qed.

Lemma decimal_ascii n : forallb is_ascii (map Byte.to_N (decimal n)) = true.
Proof.
  unfold decimal. destruct (Z.to_int n) as [d|d]; simpl.
  - destruct d; try apply digits_ascii. reflexivity.
  - destruct d; try apply (digits_ascii (_ d)). reflexivity.
Qed.

(** ** Equality *)

Lemma list_eqb_eq {A} (eqb : A -> A -> bool) :
  (forall a b, eqb a b = true -> a = b) ->
  forall l1 l2, list_eqb eqb l1 l2 = true -> l1 = l2.
Proof.
  intros Heq. induction l1 as [|a l1 IH]; destruct l2 as [|b l2]; simpl;
    try discriminate; [ reflexivity | ].
  intros [Hab Hl]%andb_true_iff. f_equal; auto.
Qed.

Lemma list_eqb_refl {A} (eqb : A -> A -> bool) :
  (forall a, eqb a a = true) -> forall l, list_eqb eqb l l = true.
Proof.
  intros Hr. induction l as [|a l IH]; simpl; [ reflexivity | ].
  now rewrite Hr, IH.
Qed.

Lemma exn_eqb_eq a b : exn_eqb a b = true -> a = b.
Proof. destruct a, b; simpl; congruence. Qed.

Lemma pyval_eqb_eq : forall a b, pyval_eqb a b = true -> a = b.
Proof.
  fix IH 1. intros a b.
  destruct a as [s|u|n| |[v|e]], b as [t|w|m| |[v'|e']]; simpl;
    try discriminate; intros H.
  - f_equal. revert H. apply list_eqb_eq. apply Byte.byte_dec_bl.
  - f_equal. revert H. apply list_eqb_eq. intros a b. apply N.eqb_eq.
  - f_equal. now apply Z.eqb_eq.
  - reflexivity.
  - do 2 f_equal. now apply IH.
  - do 2 f_equal. now apply exn_eqb_eq.
Qed.

Lemma py_eq_unicode_refl u : py_eq (PyUnicode u) (PyUnicode u) = true.
Proof. simpl. apply list_eqb_refl. apply N.eqb_refl. Qed.

Lemma py_eq_ascii_str u :
  forallb is_ascii u = true ->
  py_eq (PyStr (map byte_of_N u)) (PyUnicode u) = true.
Proof.
  intros H. simpl. rewrite ascii_to_N_byte_of_N by assumption.
  rewrite H. apply list_eqb_refl. apply N.eqb_refl.
Qed.

(** ** The function on strings *)

Lemma str_enc_dec_str s :
  str_enc_dec (PyStr s)
  = Ret (if forallb is_ascii (utf8_decode_replace s) then PyStr s
         else PyUnicode (utf8_decode_replace s)).
Proof.
  unfold str_enc_dec, decode_stage, str_stage. simpl. unfold ascii_encode.
  destruct (forallb is_ascii (utf8_decode_replace s)) eqn:E; simpl.
  - now rewrite (utf8_replaced_ascii _ _ (utf8_decode_replaced s) E).
  - reflexivity.
Qed.

Lemma str_enc_dec_unicode u :
  str_enc_dec (PyUnicode u)
  = Ret (if forallb is_ascii u then PyStr (map byte_of_N u) else PyUnicode u).
Proof.
  unfold str_enc_dec, decode_stage, str_stage. simpl. unfold ascii_encode.
  destruct (forallb is_ascii u); reflexivity.
Qed.


Lemma str_enc_dec_ascii_unicode u :
  forallb is_ascii u = true ->
  str_enc_dec (PyUnicode u) = Ret (PyStr (map byte_of_N u)).
Proof. intros H. now rewrite str_enc_dec_unicode, H. Qed.


(** ** Claims *)

(** C1 (as stated, refuted): an instance whose [__str__] raises
    [ValueError] makes [str_enc_dec] raise [ValueError]: the decode stage
    swallows its [TypeError], the second handler is for
    [UnicodeEncodeError] only. *)
Lemma str_enc_dec_raises_ValueError :
  str_enc_dec (PyInstance (Raise ValueError)) = Raise ValueError
  /\ ~ (exists v, str_enc_dec (PyInstance (Raise ValueError)) = Ret v).
Proof.
  split; [ reflexivity | ]. intros [v H]. discriminate H.
Qed.

Lemma decode_stage_returns val :
  decode_stage val
  = Ret (match val with
         | PyStr s => PyUnicode (utf8_decode_replace s)
         | _ => val
         end).
Proof. destruct val; reflexivity. Qed.

(** No byte string, unicode text, integer or [None] makes [str] raise
    anything but [UnicodeEncodeError]. *)
Lemma builtin_not_propagating val :
  is_instance val = false -> str_propagates val = false.
Proof.
  destruct val as [s|u|n| |m]; try discriminate; intros _; try reflexivity.
  unfold str_propagates. simpl. unfold ascii_encode.
  destruct (forallb is_ascii u); reflexivity.
Qed.

(** C1 (amended): [str_enc_dec] returns normally on every byte string,
    unicode text, integer and [None], and on every other input for which
    [str(val)] does not raise an exception outside [UnicodeEncodeError].
    The [TypeError] of the decode stage and the [UnicodeEncodeError] of the
    [str] stage never reach the caller. *)
Theorem str_enc_dec_returns val :
  is_instance val = false \/ str_propagates val = false ->
  exists v, str_enc_dec val = Ret v.
Proof.
  intros H.
  assert (P : str_propagates val = false)
    by (destruct H; [ now apply builtin_not_propagating | assumption ]).
  clear H. revert P.
  unfold str_propagates, str_enc_dec. rewrite decode_stage_returns.
  destruct val as [s|u|n| |m]; simpl bind.
  - intros _. change (exists v, str_enc_dec (PyStr s) = Ret v).
    rewrite str_enc_dec_str. eauto.
  - intros _. change (exists v, str_enc_dec (PyUnicode u) = Ret v).
    rewrite str_enc_dec_unicode. eauto.
  - intros _. eauto.
  - intros _. eauto.
  - unfold str_stage, try_except.
    destruct (py_str (PyInstance m)) as [v|e]; simpl; [ eauto | ].
    intros H%negb_false_iff. rewrite H. simpl. eauto.
Qed.

Lemma str_enc_dec_returns_witness :
  is_instance (PyStr [xff; xfe]) = false
  /\ exists v, str_enc_dec (PyStr [xff; xfe]) = Ret v.
Proof.
  split; [ reflexivity | apply str_enc_dec_returns; left; reflexivity ].
Defined.

(** C2 (as stated, refuted): for the byte string [abc] the [str] stage
    succeeds, no fallback is taken, and the value returned is a byte
    string, not a unicode text. *)
Lemma str_enc_dec_abc_is_str :
  exists d v,
    decode_stage (PyStr [x61; x62; x63]) = Ret d
    /\ py_str d = Ret v
    /\ str_enc_dec (PyStr [x61; x62; x63]) = Ret v
    /\ is_unicode v = false.
Proof.
  exists (PyUnicode [97; 98; 99]), (PyStr [x61; x62; x63]).
  repeat split.
Qed.

(** C2 (amended): whenever the [str] stage succeeds the value returned is
    the byte string it made; otherwise the [str] stage raised
    [UnicodeEncodeError] and the value of the decode stage is returned as
    it is, which is a unicode text unless the input was an instance. *)
Theorem str_enc_dec_result_type val v :
  str_enc_dec val = Ret v ->
  exists d, decode_stage val = Ret d
    /\ ((py_str d = Ret v /\ is_str v = true)
        \/ (py_str d = Raise UnicodeEncodeError /\ v = d
            /\ (is_instance val = false -> is_unicode v = true))).
Proof.
  unfold str_enc_dec. rewrite decode_stage_returns. simpl bind.
  set (d := match val with
            | PyStr s => PyUnicode (utf8_decode_replace s)
            | _ => val
            end).
  intros H. exists d. split; [ reflexivity | ].
  unfold str_stage, try_except in H.
  destruct (py_str d) as [w|e] eqn:E; simpl in H.
  - injection H as ->. left. split; [ reflexivity | ].
    subst d. destruct val as [s|u|n| |[[ | | | | ]|e]]; simpl in E;
      unfold ascii_encode in E;
      repeat match type of E with
             | context [if ?b then _ else _] => destruct b
             end; try discriminate; now injection E as <-.
  - destruct (issubclass e UnicodeEncodeError) eqn:S; simpl in H;
      [ | discriminate ].
    injection H as <-. right.
    assert (e = UnicodeEncodeError) as -> by (now destruct e).
    repeat split.
    subst d. destruct val as [s|u|n| |m]; simpl in *; try discriminate;
      reflexivity.
Qed.

Lemma str_enc_dec_result_type_witness :
  str_enc_dec (PyStr [xc3; xa9]) = Ret (PyUnicode [233])
  /\ exists d, decode_stage (PyStr [xc3; xa9]) = Ret d
    /\ ((py_str d = Ret (PyUnicode [233]) /\ is_str (PyUnicode [233]) = true)
        \/ (py_str d = Raise UnicodeEncodeError /\ PyUnicode [233] = d
            /\ (is_instance (PyStr [xc3; xa9]) = false
                -> is_unicode (PyUnicode [233]) = true))).
Proof.
  split; [ reflexivity | ].
  apply (str_enc_dec_result_type (PyStr [xc3; xa9]) (PyUnicode [233])).
  reflexivity.
Defined.

(** C3: a byte string that is the UTF-8 form of a text [u] is mapped to
    that text: to the unicode [u] itself when [u] has a character above
    127, and otherwise to the byte string, which Python compares equal to
    [u].  At the UTF-8 form of "héllo" the value is the unicode "héllo". *)
Theorem str_enc_dec_utf8 u :
  forallb is_code_point u = true ->
  str_enc_dec (PyStr (utf8_encode u))
  = Ret (if forallb is_ascii u then PyStr (utf8_encode u) else PyUnicode u)
  /\ py_eq (if forallb is_ascii u then PyStr (utf8_encode u) else PyUnicode u)
           (PyUnicode u) = true.
Proof.
  intros Hu. rewrite str_enc_dec_str, utf8_decode_encode by assumption.
  split; [ reflexivity | ].
  destruct (forallb is_ascii u) eqn:E; [ | apply py_eq_unicode_refl ].
  pose proof (utf8_decode_replaced (utf8_encode u)) as R.
  rewrite utf8_decode_encode in R by assumption.
  rewrite <- (utf8_replaced_ascii _ _ R E).
  now apply py_eq_ascii_str.
Qed.

Lemma str_enc_dec_utf8_witness :
  forallb is_code_point [104; 233; 108; 108; 111] = true
  /\ utf8_encode [104; 233; 108; 108; 111] = [x68; xc3; xa9; x6c; x6c; x6f]
  /\ str_enc_dec (PyStr [x68; xc3; xa9; x6c; x6c; x6f])
     = Ret (PyUnicode [104; 233; 108; 108; 111]).
Proof.
  split; [ reflexivity | split; [ reflexivity | ] ].
  exact (proj1 (str_enc_dec_utf8 [104; 233; 108; 108; 111] eq_refl)).
Defined.

(** C4: on a unicode input the decode stage is a no-op, and the value
    returned is one that Python compares equal to the input. *)
Theorem str_enc_dec_unicode_equal u :
  decode_stage (PyUnicode u) = Ret (PyUnicode u)
  /\ exists v, str_enc_dec (PyUnicode u) = Ret v
       /\ py_eq v (PyUnicode u) = true.
Proof.
  split; [ reflexivity | ].
  rewrite str_enc_dec_unicode. eexists. split; [ reflexivity | ].
  destruct (forallb is_ascii u) eqn:E.
  - now apply py_eq_ascii_str.
  - apply py_eq_unicode_refl.
Qed.

(** C5 (as stated, refuted): the three bytes ED A0 80 are not valid
    UTF-8, yet nothing in them is replaced: they come back as the
    surrogate code point U+D800. *)
Lemma str_enc_dec_surrogate_form :
  ~ utf8_valid [xed; xa0; x80]
  /\ str_enc_dec (PyStr [xed; xa0; x80]) = Ret (PyUnicode [0xD800])
  /\ ~ In replacement_character [0xD800].
Proof.
  split; [ | split; [ reflexivity | ] ].
  - intros H%valid_decodes_to_scalars. discriminate H.
  - intros [H|[]]. discriminate H.
Qed.

(** C5 (amended): a byte string that is not valid UTF-8 raises nothing and
    comes back as a unicode text that is a lossy decoding of it: every
    piece of the input at which no form of a code point starts is replaced
    by U+FFFD, while the three-byte forms of surrogates, which UTF-8
    forbids, are read as those surrogates.  So the text has a U+FFFD or a
    surrogate in it.  For [b'\xff\xfe'] the text is U+FFFD U+FFFD. *)
Theorem str_enc_dec_malformed s :
  ~ utf8_valid s ->
  exists u, str_enc_dec (PyStr s) = Ret (PyUnicode u)
    /\ utf8_replaced s u
    /\ (In replacement_character u \/ existsb is_surrogate u = true).
Proof.
  intros Hs. exists (utf8_decode_replace s).
  pose proof (utf8_decode_replaced s) as R.
  assert (L : In replacement_character (utf8_decode_replace s)
              \/ existsb is_surrogate (utf8_decode_replace s) = true).
  { destruct (utf8_replaced_exact_or_lossy _ _ R) as [[Hu E]|Hin];
      [ | now left ].
    destruct (existsb is_surrogate (utf8_decode_replace s)) eqn:X;
      [ now right | ].
    exfalso. apply Hs. exists (utf8_decode_replace s).
    split; [ now apply code_points_without_surrogate | assumption ]. }
  rewrite str_enc_dec_str.
  assert (A : forallb is_ascii (utf8_decode_replace s) = false)
    by (destruct L; [ now apply replacement_not_ascii
                    | now apply surrogate_not_ascii ]).
  rewrite A. repeat split; assumption.
Qed.

Lemma ff_fe_not_valid : ~ utf8_valid [xff; xfe].
Proof. intros H%valid_decodable%decodable_fixed_point. discriminate H. Qed.

Lemma str_enc_dec_malformed_witness :
  ~ utf8_valid [xff; xfe]
  /\ str_enc_dec (PyStr [xff; xfe]) = Ret (PyUnicode [0xFFFD; 0xFFFD])
  /\ exists u, str_enc_dec (PyStr [xff; xfe]) = Ret (PyUnicode u)
       /\ utf8_replaced [xff; xfe] u
       /\ (In replacement_character u \/ existsb is_surrogate u = true).
Proof.
  split; [ exact ff_fe_not_valid | split; [ reflexivity | ] ].
  exact (str_enc_dec_malformed [xff; xfe] ff_fe_not_valid).
Defined.


Lemma str_enc_dec_instance m :
  str_enc_dec (PyInstance m)
  = try_except (py_str (PyInstance m)) UnicodeEncodeError
               (Ret (PyInstance m)).
Proof. unfold str_enc_dec, decode_stage, str_stage. simpl. now destruct try_except. Qed.



(** Conversely, on such an instance the second application changes the
    result. *)
Lemma str_enc_dec_high_bytes_not_fixed x :
  str_gives_high_bytes x = true -> twice x <> str_enc_dec x.
Proof.
  destruct x as [s|u|n| |[[s|u|n| |m]|e]]; try discriminate.
  simpl. intros H%negb_true_iff. unfold twice.
  change (str_enc_dec (PyInstance (Ret (PyStr s)))) with (Ret (PyStr s)).
  simpl. rewrite str_enc_dec_str.
  destruct (forallb is_ascii (utf8_decode_replace s)) eqn:E;
    [ | discriminate ].
  pose proof (utf8_replaced_ascii _ _ (utf8_decode_replaced s) E) as R.
  rewrite <- R, ascii_to_N_byte_of_N in H by assumption. congruence.
Qed.

(** C7: when [str] of the decode stage's value raises
    [UnicodeEncodeError], the error is swallowed and that value is what
    [str_enc_dec] returns. *)
Theorem str_enc_dec_fallback val d :
  decode_stage val = Ret d ->
  py_str d = Raise UnicodeEncodeError ->
  str_enc_dec val = Ret d.
Proof.
  intros Hd Hs. unfold str_enc_dec. rewrite Hd. simpl.
  unfold str_stage. now rewrite Hs.
Qed.

Lemma str_enc_dec_fallback_witness :
  decode_stage (PyStr [xff; xfe]) = Ret (PyUnicode [0xFFFD; 0xFFFD])
  /\ py_str (PyUnicode [0xFFFD; 0xFFFD]) = Raise UnicodeEncodeError
  /\ str_enc_dec (PyStr [xff; xfe]) = Ret (PyUnicode [0xFFFD; 0xFFFD]).
Proof.
  split; [ reflexivity | split; [ reflexivity | ] ].
  apply (str_enc_dec_fallback (PyStr [xff; xfe])); reflexivity.
Defined.

(** C8: the integer 42 is mapped to the two characters "42" (a byte
    string, which Python compares equal to the unicode text "42"). *)
Theorem str_enc_dec_42 :
  str_enc_dec (PyInt 42) = Ret (PyStr [x34; x32])
  /\ py_eq (PyStr [x34; x32]) (PyUnicode [52; 50]) = true.
Proof. split; reflexivity. Qed.

(** ** Effects *)

(** With default encoding [ascii] and instances whose [__str__] does
    nothing but answer, the function with the state in view is the
    function of the first part, and the state is left as it was. *)
Lemma eff_str_enc_dec_agrees x w :
  (forall u, defaultencoding w u = ascii_codec u) ->
  eff_str_enc_dec (inject x) w = (inject_result (str_enc_dec x), w).
Proof.
  intros H.
  unfold eff_str_enc_dec, eff_bind, eff_try_except, eff_ret.
  destruct x as [s|u|n| |[v|e]]; simpl.
  - unfold eff_encode_default. rewrite H.
    unfold str_enc_dec, decode_stage, str_stage. simpl.
    unfold ascii_codec, ascii_encode.
    destruct (forallb is_ascii (utf8_decode_replace s)); reflexivity.
  - unfold eff_encode_default. rewrite H.
    unfold str_enc_dec, decode_stage, str_stage. simpl.
    unfold ascii_codec, ascii_encode.
    destruct (forallb is_ascii u); reflexivity.
  - reflexivity.
  - reflexivity.
  - rewrite str_enc_dec_instance.
    destruct v as [s|u|n| |m]; simpl; try reflexivity.
    + unfold eff_encode_default. rewrite H.
      unfold ascii_codec, ascii_encode.
      destruct (forallb is_ascii u); reflexivity.
    + destruct m; reflexivity.
  - rewrite str_enc_dec_instance. simpl.
    destruct (issubclass e UnicodeEncodeError); reflexivity.
Qed.

(** On an object the state the call leaves is the state one run of the
    object's [__str__] leaves. *)
Lemma eff_str_enc_dec_object dunder_str w :
  snd (eff_str_enc_dec (VObject dunder_str) w) = snd (dunder_str w).
Proof.
  unfold eff_str_enc_dec, eff_bind, eff_try_except, eff_ret. simpl.
  destruct (dunder_str w) as [[[s|u|n| |f]|e] w']; simpl; try reflexivity.
  - unfold eff_encode_default.
    destruct (defaultencoding w' u); reflexivity.
  - destruct (issubclass e UnicodeEncodeError); reflexivity.
Qed.

(** C9 (as stated, refuted): two calls on the same object give different
    results, change shared memory and print; and the result on the
    unicode text U+00E9 changes with the interpreter's default encoding. *)
Lemma eff_str_enc_dec_not_pure :
  fst (eff_str_enc_dec (VObject counting_str) fresh_world) = Ret (VStr [x30])
  /\ fst (eff_str_enc_dec (VObject counting_str)
            (snd (eff_str_enc_dec (VObject counting_str) fresh_world)))
     = Ret (VStr [x31])
  /\ memory (snd (eff_str_enc_dec (VObject counting_str) fresh_world)) 0 = 1%Z
  /\ stdout (snd (eff_str_enc_dec (VObject counting_str) fresh_world)) = [x2e]
  /\ fst (eff_str_enc_dec (VUnicode [233]) fresh_world)
     = Ret (VUnicode [233])
  /\ fst (eff_str_enc_dec (VUnicode [233])
            (with_defaultencoding fresh_world latin1_codec))
     = Ret (VStr [xe9]).
Proof. repeat split. Qed.

(** C9 (amended): on a byte string, a unicode text, an integer or [None]
    the call leaves the interpreter state as it finds it (nothing written,
    nothing printed), and its result depends on the input and on nothing
    of the state but the default encoding: under the same default encoding
    equal inputs give equal results. *)
Theorem eff_str_enc_dec_builtin v w w' :
  is_object v = false ->
  (forall u, defaultencoding w u = defaultencoding w' u) ->
  snd (eff_str_enc_dec v w) = w
  /\ fst (eff_str_enc_dec v w) = fst (eff_str_enc_dec v w').
Proof.
  intros Hv H.
  unfold eff_str_enc_dec, eff_bind, eff_try_except, eff_ret.
  destruct v as [s|u|n| |f]; try discriminate; simpl.
  - unfold eff_encode_default. rewrite <- H.
    destruct (defaultencoding w (utf8_decode_replace s)); now split.
  - unfold eff_encode_default. rewrite <- H.
    destruct (defaultencoding w u); now split.
  - now split.
  - now split.
Qed.

Lemma eff_str_enc_dec_builtin_witness :
  is_object (VStr [xc3; xa9]) = false
  /\ snd (eff_str_enc_dec (VStr [xc3; xa9]) fresh_world) = fresh_world
  /\ fst (eff_str_enc_dec (VStr [xc3; xa9]) fresh_world)
     = fst (eff_str_enc_dec (VStr [xc3; xa9])
              (snd (counting_str fresh_world))).
Proof.
  split; [ reflexivity | ].
  apply (eff_str_enc_dec_builtin (VStr [xc3; xa9]) fresh_world
           (snd (counting_str fresh_world)));
    [ reflexivity | intros u; reflexivity ].
Defined.

(** C10: a unicode input with ASCII characters only is mapped to a byte
    string, its ASCII encoding: the [str] stage succeeds, the value is not
    of the unicode type, and Python compares it equal to the input. *)
Theorem str_enc_dec_ascii_unicode_is_str u :
  forallb is_ascii u = true ->
  py_str (PyUnicode u) = Ret (PyStr (map byte_of_N u))
  /\ str_enc_dec (PyUnicode u) = Ret (PyStr (map byte_of_N u))
  /\ is_unicode (PyStr (map byte_of_N u)) = false
  /\ py_eq (PyStr (map byte_of_N u)) (PyUnicode u) = true.
Proof.
  intros H. repeat split.
  - simpl. unfold ascii_encode. now rewrite H.
  - now apply str_enc_dec_ascii_unicode.
  - now apply py_eq_ascii_str.
Qed.

Lemma str_enc_dec_ascii_unicode_is_str_witness :
  forallb is_ascii [97; 98; 99] = true
  /\ str_enc_dec (PyUnicode [97; 98; 99]) = Ret (PyStr [x61; x62; x63]).
Proof.
  split; [ reflexivity | ].
  exact (proj1 (proj2 (str_enc_dec_ascii_unicode_is_str [97; 98; 99] eq_refl))).
Defined.

(** ** Further properties of [str_enc_dec] *)

(** The decoded text is free of characters above 127 exactly when the
    bytes are. *)
Lemma decode_ascii_iff s :
  forallb is_ascii (utf8_decode_replace s)
  = forallb is_ascii (map Byte.to_N s).
Proof.
  destruct (forallb is_ascii (utf8_decode_replace s)) eqn:D,
           (forallb is_ascii (map Byte.to_N s)) eqn:B; try reflexivity.
  - pose proof (utf8_replaced_ascii _ _ (utf8_decode_replaced s) D) as E.
    rewrite <- E, ascii_to_N_byte_of_N in B by assumption. congruence.
  - rewrite utf8_decode_ascii in D by assumption. congruence.
Qed.

Lemma utf8_encode_char_length c :
  (1 <= List.length (utf8_encode_char c) <= 4)%nat.
Proof. unfold utf8_encode_char. cmp_cases; simpl; lia. Qed.

Lemma utf8_replaced_length s u :
  utf8_replaced s u ->
  (List.length u <= List.length s <= 4 * List.length u)%nat.
Proof.
  induction 1 as [|c rest u _ _ IH|bad rest u Hb _ _ IH]; simpl.
  - lia.
  - rewrite length_app. pose proof (utf8_encode_char_length c). lia.
  - rewrite length_app. lia.
Qed.

Lemma utf8_decode_app_valid u s :
  forallb is_code_point u = true ->
  utf8_decode_replace (utf8_encode u ++ s) = u ++ utf8_decode_replace s.
Proof.
  induction u as [|c u IH]; simpl; intros H; [ reflexivity | ].
  apply andb_true_iff in H as [Hc Hu].
  rewrite <- app_assoc.
  destruct (decode_one_encode c (utf8_encode u ++ s) Hc)
    as (x0 & tl & E & D & K).
  unfold utf8_encode in *.
  rewrite E, utf8_decode_replace_cons, D, K. now rewrite IH.
Qed.

Lemma forallb_ascii_app u v :
  forallb is_ascii (u ++ v) = forallb is_ascii u && forallb is_ascii v.
Proof. apply forallb_app. Qed.

(** X1: a byte string without a byte above 127 is returned as it is; a
    byte string with such a byte is returned as its lossy decoding, a
    unicode text. *)
Theorem str_enc_dec_bytes s :
  str_enc_dec (PyStr s)
  = Ret (if forallb is_ascii (map Byte.to_N s) then PyStr s
         else PyUnicode (utf8_decode_replace s)).
Proof.
  rewrite str_enc_dec_str.
  destruct (forallb is_ascii (map Byte.to_N s)) eqn:B.
  - rewrite utf8_decode_ascii by assumption. now rewrite B.
  - now rewrite decode_ascii_iff, B.
Qed.

(** X2: on a byte string, a unicode text, an integer or [None] the value
    returned is a byte string without a byte above 127 or a unicode text
    with a character above 127. *)
Theorem str_enc_dec_settles x v :
  is_instance x = false ->
  str_enc_dec x = Ret v ->
  (exists s, v = PyStr s /\ forallb is_ascii (map Byte.to_N s) = true)
  \/ (exists u, v = PyUnicode u /\ forallb is_ascii u = false).
Proof.
  destruct x as [s|u|n| |m]; try discriminate; intros _.
  - rewrite str_enc_dec_str.
    destruct (forallb is_ascii (utf8_decode_replace s)) eqn:E;
      intros [= <-]; [ left | right; eauto ].
    exists s. split; [ reflexivity | ]. now rewrite <- decode_ascii_iff.
  - rewrite str_enc_dec_unicode.
    destruct (forallb is_ascii u) eqn:E; intros [= <-];
      [ left | right; eauto ].
    eexists. split; [ reflexivity | ]. now rewrite ascii_to_N_byte_of_N.
  - intros [= <-]. left. eexists. split; [ reflexivity | ].
    apply decimal_ascii.
  - intros [= <-]. left. eexists. split; reflexivity.
Qed.

Lemma str_enc_dec_settles_witness :
  is_instance (PyInt (-7)) = false
  /\ str_enc_dec (PyInt (-7)) = Ret (PyStr [x2d; x37])
  /\ ((exists s, PyStr [x2d; x37] = PyStr s
                 /\ forallb is_ascii (map Byte.to_N s) = true)
      \/ (exists u, PyStr [x2d; x37] = PyUnicode u
                    /\ forallb is_ascii u = false)).
Proof.
  split; [ reflexivity | split; [ reflexivity | ] ].
  apply (str_enc_dec_settles (PyInt (-7))); reflexivity.
Defined.

(** X3: whatever the input, a value returned is a byte string, or a
    unicode text with a character above 127, or the input itself, which
    is then an instance on which [str] raised [UnicodeEncodeError]. *)
Theorem str_enc_dec_result_kinds x v :
  str_enc_dec x = Ret v ->
  (exists s, v = PyStr s)
  \/ (exists u, v = PyUnicode u /\ forallb is_ascii u = false)
  \/ (v = x /\ is_instance x = true
      /\ py_str x = Raise UnicodeEncodeError).
Proof.
  destruct x as [s|u|n| |m].
  - rewrite str_enc_dec_str.
    destruct (forallb is_ascii (utf8_decode_replace s)) eqn:E;
      intros [= <-]; eauto.
  - rewrite str_enc_dec_unicode.
    destruct (forallb is_ascii u) eqn:E; intros [= <-]; eauto.
  - intros [= <-]. eauto.
  - intros [= <-]. eauto.
  - rewrite str_enc_dec_instance. unfold try_except.
    destruct (py_str (PyInstance m)) as [w|e] eqn:P.
    + intros [= <-]. left.
      destruct m as [[s|u|n| |m']|e]; simpl in P; unfold ascii_encode in P;
        try discriminate;
        try (destruct (forallb is_ascii u); try discriminate);
        injection P as <-; eauto.
    + destruct (issubclass e UnicodeEncodeError) eqn:S; [ | discriminate ].
      intros [= <-]. right. right.
      assert (e = UnicodeEncodeError) as -> by (now destruct e).
      now repeat split.
Qed.

Lemma str_enc_dec_result_kinds_witness :
  str_enc_dec (PyInstance (Ret (PyUnicode [233])))
  = Ret (PyInstance (Ret (PyUnicode [233])))
  /\ ((exists s, PyInstance (Ret (PyUnicode [233])) = PyStr s)
      \/ (exists u, PyInstance (Ret (PyUnicode [233])) = PyUnicode u
                    /\ forallb is_ascii u = false)
      \/ (PyInstance (Ret (PyUnicode [233]))
          = PyInstance (Ret (PyUnicode [233]))
          /\ is_instance (PyInstance (Ret (PyUnicode [233]))) = true
          /\ py_str (PyInstance (Ret (PyUnicode [233])))
             = Raise UnicodeEncodeError)).
Proof.
  split; [ reflexivity | ].
  apply (str_enc_dec_result_kinds (PyInstance (Ret (PyUnicode [233])))).
  reflexivity.
Defined.

(** X4: an exception that leaves [str_enc_dec] comes from an instance: it
    was raised by [str] on the input itself and is no
    [UnicodeEncodeError].  The [TypeError] of the decode stage never gets
    out, and no byte string, unicode text, integer or [None] makes the
    function raise. *)
Theorem str_enc_dec_raises val e :
  str_enc_dec val = Raise e ->
  is_instance val = true
  /\ py_str val = Raise e
  /\ issubclass e UnicodeEncodeError = false.
Proof.
  destruct val as [s|u|n| |m].
  - rewrite str_enc_dec_str. discriminate.
  - rewrite str_enc_dec_unicode. discriminate.
  - discriminate.
  - discriminate.
  - rewrite str_enc_dec_instance. unfold try_except.
    destruct (py_str (PyInstance m)) as [v|e']; [ discriminate | ].
    destruct (issubclass e' UnicodeEncodeError) eqn:E; [ discriminate | ].
    intros [= ->]. now repeat split.
Qed.

Lemma str_enc_dec_raises_witness :
  str_enc_dec (PyInstance (Ret PyNone)) = Raise TypeError
  /\ is_instance (PyInstance (Ret PyNone)) = true
  /\ py_str (PyInstance (Ret PyNone)) = Raise TypeError
  /\ issubclass TypeError UnicodeEncodeError = false.
Proof.
  split; [ reflexivity | ].
  apply (str_enc_dec_raises (PyInstance (Ret PyNone)) TypeError).
  reflexivity.
Defined.

(** X5: decoding a byte string by hand first makes no difference: the byte
    string and its lossy decoding are mapped to the same value. *)
Theorem str_enc_dec_decoded_first s :
  str_enc_dec (PyUnicode (utf8_decode_replace s)) = str_enc_dec (PyStr s).
Proof.
  rewrite str_enc_dec_str, str_enc_dec_unicode.
  destruct (forallb is_ascii (utf8_decode_replace s)) eqn:E;
    [ | reflexivity ].
  now rewrite (utf8_replaced_ascii _ _ (utf8_decode_replaced s) E).
Qed.

(** X6: a text and its UTF-8 form are mapped to the same value. *)
Theorem str_enc_dec_text_or_utf8 u :
  forallb is_code_point u = true ->
  str_enc_dec (PyStr (utf8_encode u)) = str_enc_dec (PyUnicode u).
Proof.
  intros Hu. rewrite str_enc_dec_str, str_enc_dec_unicode.
  rewrite utf8_decode_encode by assumption.
  destruct (forallb is_ascii u) eqn:E; [ | reflexivity ].
  pose proof (utf8_decode_replaced (utf8_encode u)) as R.
  rewrite utf8_decode_encode in R by assumption.
  now rewrite (utf8_replaced_ascii _ _ R E).
Qed.

Lemma str_enc_dec_text_or_utf8_witness :
  forallb is_code_point [0x20AC; 0x31] = true
  /\ str_enc_dec (PyStr [xe2; x82; xac; x31])
     = str_enc_dec (PyUnicode [0x20AC; 0x31]).
Proof.
  split; [ reflexivity | ].
  exact (str_enc_dec_text_or_utf8 [0x20AC; 0x31] eq_refl).
Defined.

(** X7: among byte strings, unicode texts, integers and [None], the
    values [str_enc_dec] returns unchanged are exactly the byte strings
    without a byte above 127 and the unicode texts with a character above
    127. *)
Theorem str_enc_dec_fixed_iff v :
  is_instance v = false ->
  (str_enc_dec v = Ret v
   <-> (exists s, v = PyStr s /\ forallb is_ascii (map Byte.to_N s) = true)
       \/ (exists u, v = PyUnicode u /\ forallb is_ascii u = false)).
Proof.
  destruct v as [s|u|n| |m]; try discriminate; intros _.
  - rewrite str_enc_dec_str, decode_ascii_iff.
    destruct (forallb is_ascii (map Byte.to_N s)) eqn:E; split.
    + intros _. left. eauto.
    + reflexivity.
    + discriminate.
    + intros [(t & [= <-] & H)|(t & [=] & _)]. congruence.
  - rewrite str_enc_dec_unicode.
    destruct (forallb is_ascii u) eqn:E; split.
    + discriminate.
    + intros [(t & [=] & _)|(t & [= <-] & H)]. congruence.
    + intros _. right. eauto.
    + reflexivity.
  - split; [ discriminate | ].
    intros [(t & [=] & _)|(t & [=] & _)].
  - split; [ discriminate | ].
    intros [(t & [=] & _)|(t & [=] & _)].
Qed.

Lemma str_enc_dec_fixed_iff_witness :
  is_instance (PyUnicode [233]) = false
  /\ (str_enc_dec (PyUnicode [233]) = Ret (PyUnicode [233])
      <-> (exists s, PyUnicode [233] = PyStr s
                     /\ forallb is_ascii (map Byte.to_N s) = true)
          \/ (exists u, PyUnicode [233] = PyUnicode u
                        /\ forallb is_ascii u = false)).
Proof.
  split; [ reflexivity | ].
  apply (str_enc_dec_fixed_iff (PyUnicode [233])). reflexivity.
Defined.

(** X8: text in front of bytes that do not decode is kept: when a byte
    string starts with the UTF-8 form of [u] and goes on with bytes [s],
    one of them above 127, the value is [u] followed by the lossy decoding
    of [s]. *)
Theorem str_enc_dec_keeps_prefix u s :
  forallb is_code_point u = true ->
  forallb is_ascii (map Byte.to_N s) = false ->
  str_enc_dec (PyStr (utf8_encode u ++ s))
  = Ret (PyUnicode (u ++ utf8_decode_replace s)).
Proof.
  intros Hu Hs.
  rewrite str_enc_dec_str, utf8_decode_app_valid by assumption.
  rewrite forallb_ascii_app, decode_ascii_iff, Hs.
  now rewrite andb_false_r.
Qed.

Lemma str_enc_dec_keeps_prefix_witness :
  forallb is_code_point [104; 233] = true
  /\ forallb is_ascii (map Byte.to_N [xff; x21]) = false
  /\ str_enc_dec (PyStr [x68; xc3; xa9; xff; x21])
     = Ret (PyUnicode [104; 233; 0xFFFD; 33]).
Proof.
  split; [ reflexivity | split; [ reflexivity | ] ].
  exact (str_enc_dec_keeps_prefix [104; 233] [xff; x21] eq_refl eq_refl).
Defined.

(** X9: the unicode text returned for a byte string has at most as many
    characters as the input has bytes and at least a quarter as many; in
    particular it is never empty. *)
Theorem str_enc_dec_length s u :
  str_enc_dec (PyStr s) = Ret (PyUnicode u) ->
  (1 <= List.length u <= List.length s)%nat
  /\ (List.length s <= 4 * List.length u)%nat.
Proof.
  rewrite str_enc_dec_str.
  destruct (forallb is_ascii (utf8_decode_replace s)) eqn:E;
    [ discriminate | ].
  intros [= <-].
  pose proof (utf8_replaced_length _ _ (utf8_decode_replaced s)).
  destruct (utf8_decode_replace s); [ discriminate | simpl in *; lia ].
Qed.

Lemma str_enc_dec_length_witness :
  str_enc_dec (PyStr [xf0; x9f; x98; x80; xff])
  = Ret (PyUnicode [0x1F600; 0xFFFD])
  /\ (1 <= List.length [0x1F600; 0xFFFD]%N
      <= List.length [xf0; x9f; x98; x80; xff])%nat
  /\ (List.length [xf0; x9f; x98; x80; xff]
      <= 4 * List.length [0x1F600; 0xFFFD]%N)%nat.
Proof.
  split; [ reflexivity | ].
  apply (str_enc_dec_length [xf0; x9f; x98; x80; xff]). reflexivity.
Defined.

(** X10: a unicode text returned for a byte string that has neither a
    U+FFFD nor a surrogate in it lost nothing: the input is valid UTF-8
    and the text is what it encodes. *)
Theorem str_enc_dec_lossless s u :
  str_enc_dec (PyStr s) = Ret (PyUnicode u) ->
  ~ In replacement_character u ->
  existsb is_surrogate u = false ->
  forallb is_scalar_value u = true /\ utf8_encode u = s.
Proof.
  rewrite str_enc_dec_str.
  destruct (forallb is_ascii (utf8_decode_replace s)); [ discriminate | ].
  intros [= <-] Hn Hs.
  destruct (utf8_replaced_exact_or_lossy _ _ (utf8_decode_replaced s))
    as [[Hu E]|H]; [ | contradiction ].
  split; [ now apply code_points_without_surrogate | assumption ].
Qed.

Lemma str_enc_dec_lossless_witness :
  str_enc_dec (PyStr [x68; xc3; xa9]) = Ret (PyUnicode [104; 233])
  /\ ~ In replacement_character [104; 233]
  /\ existsb is_surrogate [104; 233] = false
  /\ utf8_encode [104; 233] = [x68; xc3; xa9].
Proof.
  assert (N : ~ In replacement_character [104; 233]).
  { simpl. intros [H|[H|[]]]; discriminate H. }
  split; [ reflexivity | split; [ exact N | split; [ reflexivity | ] ] ].
  exact (proj2 (str_enc_dec_lossless [x68; xc3; xa9] [104; 233]
                  eq_refl N eq_refl)).
Defined.
